(** * Sparse variational Gaussian process (pyro.contrib.gp.models.svgp)

    A shallow embedding of [SparseVariationalGP]: its constructor and its
    three programs [model], [guide] and [forward], over

    - tensors as handles (storage location, shape, strides) into a heap of
      storages, so that sharing between a parameter and the tensor it was
      built from is visible;
    - a state-and-exception monad in which a raised exception keeps the
      state reached so far, as in Python;
    - the collaborators the class only calls (kernel, likelihood, Cholesky
      factorisation, site naming) behind an interface.

    Floating-point numbers are idealised as exact rationals. *)

From Stdlib Require Import QArith.
From stdpp Require Import gmap strings list.

Set Default Proof Using "Type".
Local Open Scope string_scope.
Local Open Scope Q_scope.
Local Open Scope nat_scope.
Local Open Scope stdpp_scope.
Local Open Scope list_scope.

(** ** Tensor values *)

(** The content of a tensor read through its view: the shape and the
    elements in row-major order. *)
Record tval := TVal { shape : list nat; data : list Q }.

(** A two-dimensional value, as a list of rows. *)
Definition matrix := list (list Q).

Definition numel (sh : list nat) : nat := foldr Nat.mul 1 sh.

(** [t.dim()] *)
Definition dim (v : tval) : nat := length (shape v).

(** [new_zeros(shape)] as a value. *)
Definition zeros (sh : list nat) : tval := TVal sh (replicate (numel sh) 0%Q).

(** The rows of [torch.eye(M)]. *)
Definition eye (M : nat) : matrix :=
  map (fun i => map (fun j => if Nat.eqb i j then 1%Q else 0%Q) (seq 0 M)) (seq 0 M).

Definition of_matrix (m : matrix) : tval :=
  TVal [length m; length (hd [] m)] (concat m).

(** ** Tensor handles and the heap of storages *)

Definition loc := positive.

(** A tensor object: a view (shape, strides) on a storage. The tensors
    that outlive a call (the caller's tensors and the parameters) are such
    objects; a tensor that is created inside a call and dropped or
    returned by it is shared with nothing and is represented by its
    value. *)
Record tensor := Tensor { t_loc : loc; t_shape : list nat; t_strides : list nat }.

(** Strides of a contiguous row-major tensor of the given shape. *)
Fixpoint contiguous (sh : list nat) : list nat :=
  match sh with
  | [] => []
  | _ :: sh' => numel sh' :: contiguous sh'
  end.

(** Storage offsets of the elements of a view, in row-major order. *)
Fixpoint offsets (sh st : list nat) (base : nat) : list nat :=
  match sh, st with
  | n :: sh', k :: st' => flat_map (fun i => offsets sh' st' (base + i * k)) (seq 0 n)
  | _, _ => [base]
  end.

(** Reading a tensor: the value seen through its view. *)
Definition load (h : gmap loc (list Q)) (t : tensor) : tval :=
  let cells := default [] (h !! t_loc t) in
  TVal (t_shape t) (map (fun o => nth o cells 0%Q) (offsets (t_shape t) (t_strides t) 0)).

(** Allocation of a fresh storage holding [cells]. *)
Definition alloc (cells : list Q) (h : gmap loc (list Q)) : loc * gmap loc (list Q) :=
  let l := fresh (dom h) in (l, <[l := cells]> h).

(** An in-place update of the storage behind a tensor (what an optimizer
    step does to a parameter). *)
Definition store_ (t : tensor) (cells : list Q) (h : gmap loc (list Q)) : gmap loc (list Q) :=
  <[t_loc t := cells]> h.

(** [torch.nn.Parameter(t)]: the parameter is a new tensor object on the
    storage of [t]; nothing is copied. *)
Definition nn_Parameter (t : tensor) : tensor := t.

(** [t.expand(shape)] where [shape] ends with the shape of [t] (the only
    use in the class): a view with stride 0 on the new leading dimensions;
    the storage is shared. *)
Definition expand (sh : list nat) (t : tensor) : tensor :=
  Tensor (t_loc t) sh (replicate (length sh - length (t_shape t)) 0 ++ t_strides t).

(** ** Linear algebra on values *)

Definition dot (a b : list Q) : Q :=
  foldr Qplus 0%Q (zip_with Qmult a b).

Definition ncols (m : matrix) : nat := length (hd [] m).

Definition transpose (m : matrix) : matrix :=
  map (fun j => map (fun row => nth j row 0%Q) m) (seq 0 (ncols m)).

Definition madd (a b : matrix) : matrix := zip_with (zip_with Qplus) a b.
Definition msub (a b : matrix) : matrix := zip_with (zip_with Qminus) a b.
Definition mscale (c : Q) (a : matrix) : matrix := map (map (Qmult c)) a.

Definition matmul (a b : matrix) : matrix :=
  map (fun row => map (dot row) (transpose b)) a.

Definition diag (m : matrix) : list Q := imap (fun i row => nth i row 0%Q) m.

(** Forward substitution: the solution [x] of [L x = b] for a lower
    triangular [L], one row at a time; [acc] holds the entries of [x]
    found so far. *)
Fixpoint forward_subst (L : matrix) (b : list Q) (acc : list Q) : list Q :=
  match L, b with
  | row :: L', bi :: b' =>
      let i := length acc in
      let xi := ((bi - dot (take i row) acc) / nth i row 0)%Q in
      forward_subst L' b' (acc ++ [xi])
  | _, _ => acc
  end.

(** [L⁻¹ · B] for a matrix right-hand side, column by column. *)
Definition solve_lower (L B : matrix) : matrix :=
  transpose (map (fun col => forward_subst L col []) (transpose B)).

(** [k] consecutive chunks of [n] elements. *)
Fixpoint chunks (k n : nat) (l : list Q) : list (list Q) :=
  match k with
  | O => []
  | S k' => take n l :: chunks k' n (drop n l)
  end.

(** [clamp(min=0)]: an exact zero floor. *)
Definition clip (x : Q) : Q := if Qle_bool 0 x then x else 0%Q.

(** ** Exceptions and outcomes *)

Inductive exn :=
  | NumericalError          (* Cholesky factorisation of a matrix that is not positive definite *)
  | ShapeError              (* incompatible input shape *)
  | IndexError              (* [shape[0]] of a 0-dimensional tensor *)
  | AttributeError (attr : string)
  | Raised (what : string). (* an exception of a collaborator *)

Inductive outcome (A : Type) :=
  | Val (a : A)
  | Exn (e : exn).
Arguments Val {A} a.
Arguments Exn {A} e.

(** ** Sample sites *)

(** [dist.MultivariateNormal(loc, scale_tril=...).reshape(extra_event_dims=...)] *)
Inductive Dist :=
  | MultivariateNormal (mvn_loc mvn_scale_tril : tval) (extra_event_dims : nat).

Record site := Site { site_name : string; site_fn : Dist; site_value : tval }.

(** What the programs share with the inference engine: the tensor heap,
    the sample sites registered so far (latest first) and the engine's
    choice of the value returned at a site. *)
Record world := World {
  heap : gmap loc (list Q);
  sites : list site;
  oracle : string -> Dist -> tval }.

(** ** Collaborators *)

(** The kernel (a pure covariance function [k(A, B)]), the likelihood
    (which registers its own sites and may raise), [potrf] of the tensor
    library ([None]: the matrix is not positive definite) and pyro's site
    naming are only called by the class. *)
Class Collaborators := {
  Kernel : Type;
  kernel_apply : Kernel -> tval -> tval -> matrix;
  Likelihood : Type;
  Score : Type;
  likelihood_apply : Likelihood -> tval -> tval -> tval -> world -> outcome Score * world;
  potrf : matrix -> option matrix;
  param_with_module_name : string -> string -> string }.

(** ** The state-and-exception monad *)

(** A computation over a state [S]: it returns a value or raises, and in
    both cases leaves the state it has reached. *)
Definition prog (S A : Type) : Type := S -> outcome A * S.

Definition ret {S A} (a : A) : prog S A := fun s => (Val a, s).

Definition bind {S A B} (m : prog S A) (k : A -> prog S B) : prog S B :=
  fun s => match m s with
           | (Val a, s') => k a s'
           | (Exn e, s') => (Exn e, s')
           end.

Definition raise {S A} (e : exn) : prog S A := fun s => (Exn e, s).
Definition gets {S A} (f : S -> A) : prog S A := fun s => (Val (f s), s).
Definition modify {S} (f : S -> S) : prog S unit := fun s => (Val tt, f s).

Notation "'do' x <- m ;; k" := (bind m (fun x => k))
  (at level 10, x name, m at level 99, k at level 200, only parsing).
Notation "'do' ' p <- m ;; k" := (bind m (fun x => match x with p => k end))
  (at level 10, p pattern, m at level 99, k at level 200, only parsing).
Notation "m ;; k" := (bind m (fun _ => k))
  (at level 100, k at level 200, right associativity, only parsing).

(** [t.shape[0]] *)
Definition shape0 {S} (t : tensor) : prog S nat :=
  match t_shape t with
  | [] => raise IndexError
  | n :: _ => ret n
  end.

(** [t.new_zeros(shape)] for a tensor that is kept: a fresh contiguous
    tensor of zeros. *)
Definition new_zeros (sh : list nat) : prog (gmap loc (list Q)) tensor :=
  fun h =>
    let '(l, h') := alloc (replicate (numel sh) 0%Q) h in
    (Val (Tensor l sh (contiguous sh)), h').

(** [torch.eye(M, out=t.new_empty(M, M))]: a fresh M x M identity. *)
Definition new_eye (M : nat) : prog (gmap loc (list Q)) tensor :=
  fun h =>
    let '(l, h') := alloc (concat (eye M)) h in
    (Val (Tensor l [M; M] (contiguous [M; M])), h').

Inductive constraint := lower_cholesky.

Inductive Mode := mode_model | mode_guide.

Section SVGP.
Context `{Collaborators}.

(** ** The conditional-distribution engine *)

(** Modelled from the spec: [pyro.contrib.gp.util.conditional] is not part
    of the sources. Steps 1 to 6 of section 4.1: the Cholesky factor (given
    or computed, a failure is propagated), [Kuf], [W = L⁻¹ Kuf], the mean
    [Wᵗ (L⁻¹ meanU)] for each entry of the latent batch, the base
    covariance [Kff - Wᵗ W] or its diagonal, and the correction
    [(Wᵗ V)(Wᵗ V)ᵗ] with [V = L⁻¹ scaleU] or its diagonal. *)
Definition conditional_unclipped (Xnew Xu : tval) (kernelFn : Kernel)
    (meanU scaleU : tval) (choleskyUU : option matrix) (fullCov : bool)
    (jitter : Q) : outcome (tval * tval) :=
  let M := hd 0 (shape Xu) in
  let n := hd 0 (shape Xnew) in
  let latent := removelast (shape meanU) in
  let chol :=
    match choleskyUU with
    | Some L => Some L
    | None => potrf (madd (kernel_apply kernelFn Xu Xu) (mscale jitter (eye M)))
    end in
  match chol with
  | None => Exn NumericalError
  | Some L =>
      let Kuf := kernel_apply kernelFn Xu Xnew in
      let W := solve_lower L Kuf in
      let Wt := transpose W in
      let Kff := kernel_apply kernelFn Xnew Xnew in
      let means :=
        map (fun mu => map (dot (forward_subst L mu [])) Wt)
            (chunks (numel latent) M (data meanU)) in
      let WtVs :=
        map (fun Su => matmul Wt (solve_lower L (chunks M M Su)))
            (chunks (numel latent) (M * M) (data scaleU)) in
      let meanNew := TVal (latent ++ [n]) (concat means) in
      if fullCov then
        let base := msub Kff (matmul Wt W) in
        let covs := map (fun WtV => madd base (matmul WtV (transpose WtV))) WtVs in
        Val (meanNew, TVal (latent ++ [n; n]) (concat (map (fun c => concat c) covs)))
      else
        let base := zip_with Qminus (diag Kff) (map (fun col => dot col col) Wt) in
        let vars :=
          map (fun WtV => zip_with Qplus base (map (fun row => dot row row) WtV)) WtVs in
        Val (meanNew, TVal (latent ++ [n]) (concat vars))
  end.

(** Modelled from the spec: step 7 of section 4.1, on top of steps 1 to 6:
    in diagonal mode negative variances are clipped to zero. *)
Definition conditional (Xnew Xu : tval) (kernelFn : Kernel)
    (meanU scaleU : tval) (choleskyUU : option matrix) (fullCov : bool)
    (jitter : Q) : outcome (tval * tval) :=
  match conditional_unclipped Xnew Xu kernelFn meanU scaleU choleskyUU fullCov jitter with
  | Exn e => Exn e
  | Val (meanNew, cov) =>
      Val (meanNew, if fullCov then cov else TVal (shape cov) (map clip (data cov)))
  end.

(** ** The class *)

Record SparseVariationalGP := {
  X : tensor;
  y : option tensor;
  kernel : Kernel;
  jitter : Q;
  name : string;
  likelihood : Likelihood;
  Xu : tensor;
  latent_shape : list nat;
  u_loc : tensor;
  u_scale_tril : tensor;
  constraints : gmap string constraint;
  _sample_latent : bool;
  mode : option Mode }.

(** The constructor, on the tensor heap. The fields [X], [y], [kernel],
    [jitter] and [name] are those the base class constructor is called
    with (modelled from the spec, section 6: the base class is not part of
    the sources); no mode is set and no constraint is registered before
    [set_constraint]. *)
Definition __init__ (X' : tensor) (y' : option tensor) (kernel' : Kernel) (Xu' : tensor)
    (likelihood' : Likelihood) (latent_shape' : option (list nat)) (jitter' : Q)
    (name' : string) : prog (gmap loc (list Q)) SparseVariationalGP :=
  let self_Xu := nn_Parameter Xu' in
  let y_batch_shape :=
    match y' with Some yt => removelast (t_shape yt) | None => [] end in
  let self_latent_shape := default y_batch_shape latent_shape' in
  do M <- shape0 self_Xu ;;
  let u_loc_shape := self_latent_shape ++ [M] in
  do u_loc0 <- new_zeros u_loc_shape ;;
  let self_u_loc := nn_Parameter u_loc0 in
  let u_scale_tril_shape := self_latent_shape ++ [M; M] in
  do eyeM <- new_eye M ;;
  let u_scale_tril0 := expand u_scale_tril_shape eyeM in
  let self_u_scale_tril := nn_Parameter u_scale_tril0 in
  ret {| X := X'; y := y'; kernel := kernel'; jitter := jitter'; name := name';
         likelihood := likelihood'; Xu := self_Xu; latent_shape := self_latent_shape;
         u_loc := self_u_loc; u_scale_tril := self_u_scale_tril;
         constraints := <["u_scale_tril" := lower_cholesky]> ∅;
         _sample_latent := true; mode := None |}.

Definition state : Type := SparseVariationalGP * world.

Definition get_self : prog state SparseVariationalGP := gets fst.

(** The instance with one attribute assigned. *)
Definition with_sample_latent (b : bool) (self : SparseVariationalGP) : SparseVariationalGP :=
  {| X := X self; y := y self; kernel := kernel self; jitter := jitter self;
     name := name self; likelihood := likelihood self; Xu := Xu self;
     latent_shape := latent_shape self; u_loc := u_loc self;
     u_scale_tril := u_scale_tril self; constraints := constraints self;
     _sample_latent := b; mode := mode self |}.

Definition with_mode (md : option Mode) (self : SparseVariationalGP) : SparseVariationalGP :=
  {| X := X self; y := y self; kernel := kernel self; jitter := jitter self;
     name := name self; likelihood := likelihood self; Xu := Xu self;
     latent_shape := latent_shape self; u_loc := u_loc self;
     u_scale_tril := u_scale_tril self; constraints := constraints self;
     _sample_latent := _sample_latent self; mode := md |}.

(** [self._sample_latent = b] *)
Definition set_sample_latent (b : bool) : prog state unit :=
  modify (fun '(self, w) => (with_sample_latent b self, w)).

(** Modelled from the spec: [set_mode] belongs to the base class, which is
    not part of the sources. The spec gives the two programs no state of
    their own besides the parameters they read (sections 2 and 4.3), so
    [set_mode] only records which of the two programs runs. *)
Definition set_mode (md : Mode) : prog state unit :=
  modify (fun '(self, w) => (with_mode (Some md) self, w)).

(** Modelled from the spec: [get_param] belongs to the base class, which
    is not part of the sources. Section 6: [get(name) -> currentValue], a
    live reference; the parameters are the attributes of the instance. *)
Definition get_param (param : string) : prog state tensor :=
  if String.eqb param "Xu" then gets (fun s => Xu (fst s))
  else if String.eqb param "u_loc" then gets (fun s => u_loc (fst s))
  else if String.eqb param "u_scale_tril" then gets (fun s => u_scale_tril (fst s))
  else raise (AttributeError param).

(** Modelled from the spec: [_check_Xnew_shape] belongs to the base class,
    which is not part of the sources. Section 4.4, step 1: the shape of
    [Xnew] must be compatible with the training inputs (the same number of
    dimensions and the same feature dimensions), else a ShapeError. *)
Definition _check_Xnew_shape (Xnew : tensor) : prog state unit :=
  do self <- get_self ;;
  if decide (length (t_shape Xnew) = length (t_shape (X self))
             /\ tail (t_shape Xnew) = tail (t_shape (X self)))
  then ret tt else raise ShapeError.

(** Modelled from the spec: [pyro.sample] is not part of the sources.
    Section 6, [sample(name, distribution) -> sampledValue]: the site is
    registered and the value chosen by the engine is returned. *)
Definition register (st : site) (w : world) : world :=
  {| heap := heap w; sites := st :: sites w; oracle := oracle w |}.

Definition sample (nm : string) (fn : Dist) : prog state tval :=
  fun '(self, w) =>
    let v := oracle w nm fn in
    (Val v, (self, register (Site nm fn v) w)).

(** [kernel(A)], that is [k(A, A)], on the current content of [A]. *)
Definition call_kernel (k : Kernel) (A : tensor) : prog state matrix :=
  gets (fun s => kernel_apply k (load (heap (snd s)) A) (load (heap (snd s)) A)).

(** [K.potrf(upper=False)] *)
Definition call_potrf (K : matrix) : prog state matrix :=
  match potrf K with
  | Some L => ret L
  | None => raise NumericalError
  end.

(** [conditional(...)] on the current content of its tensor arguments. *)
Definition call_conditional (Xnew Xu' : tensor) (k : Kernel) (f_loc f_scale_tril : tensor)
    (Lff : option matrix) (full_cov : bool) (jit : Q) : prog state (tval * tval) :=
  fun s =>
    let h := heap (snd s) in
    (conditional (load h Xnew) (load h Xu') k (load h f_loc) (load h f_scale_tril)
       Lff full_cov jit, s).

(** [likelihood(f_loc, f_var, y)]: the likelihood acts on what the
    programs share with the engine, not on the instance. *)
Definition call_likelihood (lik : Likelihood) (f_loc f_var : tval) (yt : tensor)
    : prog state Score :=
  fun '(self, w) =>
    let '(r, w') := likelihood_apply lik f_loc f_var (load (heap w) yt) w in
    (r, (self, w')).

(** What [model] returns: the latent mean and variance, or the result of
    the likelihood. *)
Inductive model_result :=
  | Latent (f_loc f_var : tval)
  | Observed (score : Score).

(** [SparseVariationalGP.model] *)
Definition model : prog state model_result :=
  set_mode mode_model ;;
  do Xu <- get_param "Xu" ;;
  do u_loc <- get_param "u_loc" ;;
  do u_scale_tril <- get_param "u_scale_tril" ;;
  do M <- shape0 Xu ;;
  do self <- get_self ;;
  do K <- call_kernel (kernel self) Xu ;;
  let Kuu := madd K (mscale (jitter self) (eye M)) in
  do Luu <- call_potrf Kuu ;;
  let zero_loc := zeros (t_shape u_loc) in
  let u_name := param_with_module_name (name self) "u" in
  sample u_name (MultivariateNormal zero_loc (of_matrix Luu) (dim zero_loc - 1)) ;;
  do ' (f_loc, f_var) <- call_conditional (X self) Xu (kernel self) u_loc u_scale_tril
                           (Some Luu) false (jitter self) ;;
  match y self with
  | None => ret (Latent f_loc f_var)
  | Some yt => do r <- call_likelihood (likelihood self) f_loc f_var yt ;; ret (Observed r)
  end.

(** [SparseVariationalGP.guide] *)
Definition guide : prog state (tensor * Kernel * tensor * tensor) :=
  set_mode mode_guide ;;
  do Xu <- get_param "Xu" ;;
  do u_loc <- get_param "u_loc" ;;
  do u_scale_tril <- get_param "u_scale_tril" ;;
  do self <- get_self ;;
  (if _sample_latent self then
     let u_name := param_with_module_name (name self) "u" in
     do h <- gets (fun s => heap (snd s)) ;;
     sample u_name (MultivariateNormal (load h u_loc) (load h u_scale_tril)
                      (length (t_shape u_loc) - 1)) ;;
     ret tt
   else ret tt) ;;
  ret (Xu, kernel self, u_loc, u_scale_tril).

(** [SparseVariationalGP.forward] *)
Definition forward (Xnew : tensor) (full_cov : bool) : prog state (tval * tval) :=
  _check_Xnew_shape Xnew ;;
  do tmp_sample_latent <- gets (fun s => _sample_latent (fst s)) ;;
  set_sample_latent false ;;
  do ' (Xu, kernel, u_loc, u_scale_tril) <- guide ;;
  set_sample_latent tmp_sample_latent ;;
  do self <- get_self ;;
  do ' (loc, cov) <- call_conditional Xnew Xu kernel u_loc u_scale_tril
                       None full_cov (jitter self) ;;
  ret (loc, cov).

(** *** Names for what the programs compute on the way *)

(** The name of the sample site of the inducing values. *)
Definition u_site_name (self : SparseVariationalGP) : string :=
  param_with_module_name (name self) "u".

(** [Kuu = k(Xu, Xu) + jitter·I] on the current inducing points. *)
Definition Kuu_of (self : SparseVariationalGP) (h : gmap loc (list Q)) : matrix :=
  madd (kernel_apply (kernel self) (load h (Xu self)) (load h (Xu self)))
       (mscale (jitter self) (eye (hd 0 (t_shape (Xu self))))).

(** The site [model] declares, given the Cholesky factor of [Kuu]. *)
Definition prior_site (self : SparseVariationalGP) (w : world) (Luu : matrix) : site :=
  let fn := MultivariateNormal (zeros (t_shape (u_loc self))) (of_matrix Luu)
              (length (t_shape (u_loc self)) - 1) in
  Site (u_site_name self) fn (oracle w (u_site_name self) fn).

(** The site [guide] declares when sampling is enabled. *)
Definition posterior_site (self : SparseVariationalGP) (w : world) : site :=
  let fn := MultivariateNormal (load (heap w) (u_loc self)) (load (heap w) (u_scale_tril self))
              (length (t_shape (u_loc self)) - 1) in
  Site (u_site_name self) fn (oracle w (u_site_name self) fn).

(** The latent mean and variance [model] asks the engine for. *)
Definition latent_of (self : SparseVariationalGP) (h : gmap loc (list Q)) (Luu : matrix)
    : outcome (tval * tval) :=
  conditional (load h (X self)) (load h (Xu self)) (kernel self)
    (load h (u_loc self)) (load h (u_scale_tril self)) (Some Luu) false (jitter self).

(** The prediction [forward] asks the engine for. *)
Definition predict_of (self : SparseVariationalGP) (h : gmap loc (list Q)) (Xnew : tensor)
    (full_cov : bool) : outcome (tval * tval) :=
  conditional (load h Xnew) (load h (Xu self)) (kernel self)
    (load h (u_loc self)) (load h (u_scale_tril self)) None full_cov (jitter self).

(** The shape test of [_check_Xnew_shape]. *)
Definition Xnew_ok (self : SparseVariationalGP) (Xnew : tensor) : Prop :=
  length (t_shape Xnew) = length (t_shape (X self))
  /\ tail (t_shape Xnew) = tail (t_shape (X self)).

(** Two states give [forward] the same inputs: the same kernel and
    jitter, training inputs of the same shape, and the same content of
    [Xnew] and of the three parameters. Flag, mode, sites and the engine's
    choices are free. *)
Definition same_inputs (Xnew : tensor) (s1 s2 : state) : Prop :=
  t_shape (X (fst s1)) = t_shape (X (fst s2))
  /\ kernel (fst s1) = kernel (fst s2)
  /\ jitter (fst s1) = jitter (fst s2)
  /\ load (heap (snd s1)) Xnew = load (heap (snd s2)) Xnew
  /\ load (heap (snd s1)) (Xu (fst s1)) = load (heap (snd s2)) (Xu (fst s2))
  /\ load (heap (snd s1)) (u_loc (fst s1)) = load (heap (snd s2)) (u_loc (fst s2))
  /\ load (heap (snd s1)) (u_scale_tril (fst s1)) = load (heap (snd s2)) (u_scale_tril (fst s2)).

Definition with_oracle (o : string -> Dist -> tval) (w : world) : world :=
  {| heap := heap w; sites := sites w; oracle := o |}.

Definition with_likelihood (lik : Likelihood) (self : SparseVariationalGP) : SparseVariationalGP :=
  {| X := X self; y := y self; kernel := kernel self; jitter := jitter self;
     name := name self; likelihood := lik; Xu := Xu self;
     latent_shape := latent_shape self; u_loc := u_loc self;
     u_scale_tril := u_scale_tril self; constraints := constraints self;
     _sample_latent := _sample_latent self; mode := mode self |}.

(** *** Call sequences and what they keep *)

(** The parts of a site's distribution. *)
Definition dist_loc (fn : Dist) : tval :=
  match fn with MultivariateNormal l _ _ => l end.

Definition dist_event_dims (fn : Dist) : nat :=
  match fn with MultivariateNormal _ _ n => n end.

(** The shapes of the three parameters fit together: [M] inducing points,
    a mean of shape [latent_shape + (M,)] and a scale factor of shape
    [latent_shape + (M, M)]. *)
Definition shapes_agree (self : SparseVariationalGP) : Prop :=
  exists (M : nat) (sh : list nat),
    t_shape (Xu self) = M :: sh
    /\ t_shape (u_loc self) = latent_shape self ++ [M]
    /\ t_shape (u_scale_tril self) = latent_shape self ++ [M; M].

(** A call of one of the three programs by a user of the instance. *)
Inductive call :=
  | call_model
  | call_guide
  | call_forward (Xnew : tensor) (full_cov : bool).

(** The state a call leaves, whether it returns or raises. *)
Definition after (c : call) (s : state) : state :=
  match c with
  | call_model => snd (model s)
  | call_guide => snd (guide s)
  | call_forward Xnew full_cov => snd (forward Xnew full_cov s)
  end.

(** The state a sequence of calls leaves, a failed call being caught by
    the caller. *)
Definition after_all (cs : list call) (s : state) : state :=
  foldl (fun s c => after c s) s cs.

End SVGP.

(** ** The per-parameter options of the optimizer test *)

Module test_optim.


End test_optim.

(** ** A concrete instance, for evaluation *)

Module Demo.

(** The points of a 1-D or 2-D input value, one list of coordinates each. *)
Definition points (v : tval) : list (list Q) :=
  match shape v with
  | [n; d] => chunks n d (data v)
  | _ => map (fun x => [x]) (data v)
  end.

(** A rational quadratic kernel with variance [var]:
    [k(a, b) = var / (1 + |a - b|²)]. *)
Definition rq (var : Q) (A B : tval) : matrix :=
  map (fun a => map (fun b =>
         let d := zip_with Qminus a b in (var / (1 + dot d d))%Q) (points B))
      (points A).

(** The square root of a positive rational that has a rational one. *)
Definition sqrtQ (q : Q) : option Q :=
  let r := Qred q in
  let n := Z.sqrt (Qnum r) in
  let d := Z.sqrt (Zpos (Qden r)) in
  if ((0 <? Qnum r) && (n * n =? Qnum r) && (d * d =? Zpos (Qden r)))%Z
  then Some (Qmake n (Z.to_pos d)) else None.

(** Cholesky factorisation, row by row, of a matrix that has a rational
    factor; [None] when a pivot is not positive (the matrix is not
    positive definite) or has no rational root. *)
Fixpoint cholesky_rows (n : nat) (A : matrix) (L : matrix) : option matrix :=
  match A with
  | [] => Some L
  | a :: A' =>
      let i := length L in
      let x := forward_subst L (take i a) [] in
      match sqrtQ (nth i a 0 - dot x x)%Q with
      | Some d => cholesky_rows n A' (L ++ [x ++ [d] ++ replicate (n - S i) 0%Q])
      | None => None
      end
  end.

Definition cholesky (A : matrix) : option matrix := cholesky_rows (length A) A [].

(** A likelihood that registers one observation site of its own and
    scores with the sum of the squared residuals plus the variances;
    [strict = true] makes it raise when the lengths differ. *)
Definition gaussian_like (strict : bool) (f_loc f_var yv : tval) (w : world)
    : outcome Q * world :=
  if strict && negb (Nat.eqb (length (data f_loc)) (length (data yv)))
  then (Exn (Raised "shape mismatch"), w)
  else
    let r := zip_with Qminus (data yv) (data f_loc) in
    (Val (dot r r + foldr Qplus 0 (data f_var))%Q,
     register (Site "y" (MultivariateNormal f_loc f_var 0) yv) w).

#[local] Instance collab : Collaborators := {|
  Kernel := Q;
  kernel_apply := rq;
  Likelihood := bool;
  Score := Q;
  likelihood_apply := gaussian_like;
  potrf := cholesky;
  param_with_module_name := fun module_name param_name =>
      String.append module_name (String.append "$$$" param_name) |}.

(** The caller's tensors: X = [[0],[1],[2]], y = [1/10, 9/10, 21/10] and
    Xu = [[1/2],[3/2]], each on a storage of its own. *)
Definition tX : tensor := Tensor 1%positive [3; 1] [1; 1].
Definition ty : tensor := Tensor 2%positive [3] [1].
Definition tXu : tensor := Tensor 3%positive [2; 1] [1; 1].

Definition heap0 : gmap loc (list Q) :=
  <[1%positive := [0; 1; 2]%Q]>
    (<[2%positive := [1 # 10; 9 # 10; 21 # 10]%Q]>
       (<[3%positive := [1 # 2; 3 # 2]%Q]> ∅)).

(** Kernel variance and jitter for which the factor of [Kuu] is rational:
    [Kuu = [[1, 95/193], [95/193, 1]]] and [Luu = [[1, 0], [95/193, 168/193]]]. *)
Definition var0 : Q := 190 # 193.
Definition jitter0 : Q := 3 # 193.

Definition build (yt : option tensor) (lik : bool) : outcome SparseVariationalGP * gmap loc (list Q) :=
  __init__ tX yt var0 tXu lik None jitter0 "SVGP" heap0.

Definition world0 (h : gmap loc (list Q)) : world :=
  {| heap := h; sites := []; oracle := fun _ _ => TVal [2] [7; 7]%Q |}.

(** The instance [build] constructs and the heap it leaves. *)
Definition self_of (k j : Q) (yt : option tensor) (lik : bool) : SparseVariationalGP :=
  {| X := tX; y := yt; kernel := k; jitter := j; name := "SVGP"; likelihood := lik;
     Xu := tXu; latent_shape := [];
     u_loc := Tensor 4%positive [2] [1];
     u_scale_tril := Tensor 5%positive [2; 2] [2; 1];
     constraints := <["u_scale_tril" := lower_cholesky]> ∅;
     _sample_latent := true; mode := None |}.

Definition heap1 : gmap loc (list Q) :=
  <[5%positive := [1; 0; 0; 1]%Q]> (<[4%positive := [0; 0]%Q]> heap0).

Definition self0 : SparseVariationalGP := self_of var0 jitter0 None false.
Definition w0 : world := world0 heap1.

Definition state0 (yt : option tensor) (lik : bool) : state :=
  (self_of var0 jitter0 yt lik, world0 heap1).

(** Two inducing points at the same place, unit variance and no jitter:
    [Kuu = [[1, 1], [1, 1]]] is singular and has no Cholesky factor. *)
Definition heap_dup : gmap loc (list Q) := <[3%positive := [1 # 2; 1 # 2]%Q]> heap1.

Definition state_singular : state := (self_of 1 0 None false, world0 heap_dup).

(** Observations of the wrong length, for the strict likelihood. *)
Definition ty_short : tensor := Tensor 2%positive [2] [1].

(** The same parameters in another situation: sampling suppressed, the
    mode set, a site already registered and an engine that draws other
    values. *)
Definition state0' : state :=
  (with_sample_latent false (with_mode (Some mode_model) (self_of var0 jitter0 None false)),
   {| heap := heap1;
      sites := [Site "other" (MultivariateNormal (zeros [1]) (zeros [1; 1]) 0) (zeros [1])];
      oracle := fun _ _ => TVal [2] [1; 2]%Q |}).

(** The factor of [Kuu] and the diagonal prediction at the training
    inputs, as computed. *)
Definition Luu0 : matrix :=
  Eval vm_compute in
    default [] (cholesky (Kuu_of (self_of var0 jitter0 None false) heap1)).

Definition pred0 : tval * tval :=
  Eval vm_compute in
    match fst (forward tX false (state0 None false)) with
    | Val v => v
    | Exn _ => (zeros [], zeros [])
    end.

(** A 0-dimensional tensor on the storage of the inducing points. *)
Definition tScalar : tensor := Tensor 3%positive [] [].

End Demo.

(** * Properties *)

(** ** Reading views *)

Section Views.

Lemma flat_map_blocks (m n : nat) : forall k base : nat,
  flat_map (fun i => seq (base + i * m) m) (seq k n) = seq (base + k * m) (n * m).
Proof.
  induction n as [|n IH]; intros k base; [reflexivity|].
  cbn [seq flat_map]. rewrite IH.
  replace (S n * m) with (m + n * m) by lia.
  rewrite seq_app. do 2 f_equal. lia.
Qed.

(** A contiguous view reads its storage cell by cell. *)
Lemma offsets_contiguous (sh : list nat) : forall base : nat,
  offsets sh (contiguous sh) base = seq base (numel sh).
Proof.
  induction sh as [|n sh IH]; intros base; [reflexivity|].
  cbn [offsets contiguous].
  rewrite (flat_map_ext _ (fun i => seq (base + i * numel sh) (numel sh)))
    by (intros i; apply IH).
  rewrite flat_map_blocks. f_equal. lia.
Qed.

Lemma flat_map_const {A B} (c : list B) (l : list A) :
  flat_map (fun _ => c) l = concat (replicate (length l) c).
Proof. induction l as [|a l IH]; [reflexivity|]. cbn. by rewrite IH. Qed.

Lemma concat_replicate_mul {A} (n m : nat) (c : list A) :
  concat (replicate (n * m) c) = concat (replicate n (concat (replicate m c))).
Proof.
  induction n as [|n IH]; [reflexivity|].
  replace (S n * m) with (m + n * m) by lia.
  rewrite replicate_add, concat_app, IH. reflexivity.
Qed.

(** Leading dimensions of stride 0 read the same cells once per entry. *)
Lemma offsets_stride0 (batch sh st : list nat) : forall base : nat,
  offsets (batch ++ sh) (replicate (length batch) 0 ++ st) base
  = concat (replicate (numel batch) (offsets sh st base)).
Proof.
  induction batch as [|n batch IH]; intros base.
  - cbn. by rewrite app_nil_r.
  - cbn [app length replicate offsets].
    rewrite (flat_map_ext _ (fun _ => concat (replicate (numel batch) (offsets sh st base)))).
    + rewrite flat_map_const, length_seq. symmetry. apply concat_replicate_mul.
    + intros i. rewrite Nat.mul_0_r, Nat.add_0_r. apply IH.
Qed.

Lemma map_replicate {A B} (f : A -> B) (n : nat) (a : A) :
  map f (replicate n a) = replicate n (f a).
Proof. induction n as [|n IH]; [reflexivity|]. cbn. by rewrite IH. Qed.

Lemma map_nth_seq (cells : list Q) :
  map (fun o => nth o cells 0%Q) (seq 0 (length cells)) = cells.
Proof.
  induction cells as [|c cells IH]; [reflexivity|].
  cbn [length seq map nth]. f_equal. rewrite <- seq_shift, map_map. exact IH.
Qed.

Lemma length_concat_eye (M : nat) : length (concat (eye M)) = M * M.
Proof.
  assert (Hl : forall l l' : list nat,
             length (concat (map (fun i => map (fun j => if Nat.eqb i j then 1%Q else 0%Q) l) l'))
             = length l' * length l).
  { intros l. induction l' as [|i l' IH]; [reflexivity|].
    cbn [map concat length]. rewrite length_app, IH, length_map. lia. }
  unfold eye. rewrite Hl. by rewrite !length_seq.
Qed.

(** Reading a tensor whose storage holds exactly its elements. *)
Lemma load_contiguous (h : gmap loc (list Q)) (l : loc) (sh : list nat) (cells : list Q) :
  h !! l = Some cells -> length cells = numel sh ->
  load h (Tensor l sh (contiguous sh)) = TVal sh cells.
Proof.
  intros Hl Hlen. unfold load. cbn [t_loc t_shape t_strides].
  rewrite Hl, offsets_contiguous, <- Hlen. cbn [default]. by rewrite map_nth_seq.
Qed.

(** Reading an expanded tensor: the elements once per batch entry. *)
Lemma load_expand (h : gmap loc (list Q)) (l : loc) (batch sh : list nat) (cells : list Q) :
  h !! l = Some cells -> length cells = numel sh ->
  load h (expand (batch ++ sh) (Tensor l sh (contiguous sh)))
  = TVal (batch ++ sh) (concat (replicate (numel batch) cells)).
Proof.
  intros Hl Hlen. unfold load, expand. cbn [t_loc t_shape t_strides].
  rewrite Hl. cbn [default]. rewrite length_app, Nat.add_sub.
  rewrite offsets_stride0, offsets_contiguous, <- Hlen.
  rewrite concat_map, map_replicate. by rewrite map_nth_seq.
Qed.

(** Storages that exist are not touched by an allocation. *)
Lemma load_alloc (h : gmap loc (list Q)) (cells : list Q) (t : tensor) :
  t_loc t ∈ dom h -> load (snd (alloc cells h)) t = load h t.
Proof.
  intros Hin. unfold load, alloc. cbn [snd].
  rewrite lookup_insert_ne; [reflexivity|].
  intros Heq. rewrite <- Heq in Hin. by apply is_fresh in Hin.
Qed.

End Views.

Section Properties.
Context `{Collaborators}.

#[local] Arguments conditional : simpl never.
#[local] Arguments load : simpl never.
#[local] Arguments zeros : simpl never.

(** ** The constructor *)

(** C5, as amended. For initial inducing points with at least one
    dimension and [M] points, the constructor returns an instance whose
    posterior mean reads as the zero tensor of shape
    [latent_shape + (M,)] and whose posterior scale factor reads as the
    M x M identity repeated over [latent_shape]; both live on storages
    that did not exist before, and every tensor that existed reads as
    before. The inducing-point parameter is the caller's tensor itself:
    the same storage through the same view, so that it holds the caller's
    values and an in-place update of the parameter is what the caller's
    tensor reads afterwards. *)
Theorem init_parameters (X' : tensor) (y' : option tensor) (k : Kernel) (Xu' : tensor)
    (lik : Likelihood) (ls : option (list nat)) (j : Q) (nm : string)
    (h : gmap loc (list Q)) (M : nat) (sh : list nat) :
  t_shape Xu' = M :: sh ->
  exists (self : SparseVariationalGP) (h' : gmap loc (list Q)),
    __init__ X' y' k Xu' lik ls j nm h = (Val self, h')
    /\ latent_shape self =
       default (match y' with Some yt => removelast (t_shape yt) | None => [] end) ls
    /\ load h' (u_loc self) =
       TVal (latent_shape self ++ [M]) (replicate (numel (latent_shape self ++ [M])) 0%Q)
    /\ load h' (u_scale_tril self) =
       TVal (latent_shape self ++ [M; M])
            (concat (replicate (numel (latent_shape self)) (concat (eye M))))
    /\ Xu self = Xu'
    /\ (forall t : tensor, t_loc t ∈ dom h -> load h' t = load h t)
    /\ (forall cells : list Q,
          load (store_ (Xu self) cells h') Xu' =
          TVal (t_shape Xu')
               (map (fun o => nth o cells 0%Q) (offsets (t_shape Xu') (t_strides Xu') 0)))
    /\ ((t_loc (u_loc self) ∉ dom h) /\ (t_loc (u_scale_tril self) ∉ dom h)
        /\ t_loc (u_loc self) <> t_loc (u_scale_tril self))
    /\ _sample_latent self = true
    /\ constraints self !! "u_scale_tril" = Some lower_cholesky.
Proof.
  intros Hsh.
  unfold __init__, bind, shape0, nn_Parameter. rewrite Hsh.
  unfold ret at 1. unfold new_zeros, new_eye, alloc, ret.
  set (latent := default _ ls).
  set (zs := replicate (numel (latent ++ [M])) 0%Q).
  set (l1 := fresh (dom h)). set (h1 := <[l1 := zs]> h).
  set (l2 := fresh (dom h1)). set (h2 := <[l2 := concat (eye M)]> h1).
  assert (Hl1 : l1 ∉ dom h) by apply is_fresh.
  assert (Hl2 : l2 ∉ dom h1) by apply is_fresh.
  assert (Hsub : forall l : loc, l = l1 \/ l ∈ dom h -> l ∈ dom h1).
  { intros l Hl. unfold h1. rewrite dom_insert_L. set_solver. }
  assert (Hne : l1 <> l2) by (intros Heq; apply Hl2, Hsub; by left).
  eexists _, h2. split; [reflexivity|]. cbn [latent_shape u_loc u_scale_tril Xu
    _sample_latent constraints].
  split; [reflexivity|]. split.
  { apply load_contiguous; [|apply length_replicate].
    unfold h2, h1. rewrite lookup_insert_ne by done. apply lookup_insert_eq. }
  split.
  { apply (load_expand h2 l2 latent [M; M]); [apply lookup_insert_eq|].
    rewrite length_concat_eye. cbn. lia. }
  split; [reflexivity|]. split.
  { intros t Ht. unfold load, h2, h1.
    rewrite !lookup_insert_ne; [reflexivity| |].
    - intros Heq. apply Hl1. by rewrite Heq.
    - intros Heq. apply Hl2, Hsub. right. by rewrite Heq. }
  split.
  { intros cells. unfold load, store_. rewrite lookup_insert_eq, Hsh. reflexivity. }
  split.
  { cbn [t_loc expand]. split; [exact Hl1|]. split; [|exact Hne].
    intros Hin. apply Hl2, Hsub. by right. }
  split; [reflexivity|]. apply lookup_insert_eq.
Qed.

(** ** The programs in closed form *)

Lemma with_mode_sample_latent md b (self : SparseVariationalGP) :
  with_sample_latent b (with_mode md (with_sample_latent false self))
  = with_mode md (with_sample_latent b self).
Proof. reflexivity. Qed.

Lemma with_sample_latent_id (self : SparseVariationalGP) :
  with_sample_latent (_sample_latent self) self = self.
Proof. by destruct self. Qed.

(** [guide] always returns the four learned objects; it sets the mode and
    registers its site exactly when sampling is enabled. *)
Lemma guide_closed_form (self : SparseVariationalGP) (w : world) :
  guide (self, w) =
  (Val (Xu self, kernel self, u_loc self, u_scale_tril self),
   (with_mode (Some mode_guide) self,
    if _sample_latent self then register (posterior_site self w) w else w)).
Proof.
  unfold guide, bind, set_mode, modify, get_param, gets, get_self, ret, sample; simpl.
  destruct (_sample_latent self); reflexivity.
Qed.

(** [forward]: the shape test, then the engine on the current parameters. *)
Lemma forward_closed_form (Xnew : tensor) (full_cov : bool)
    (self : SparseVariationalGP) (w : world) :
  forward Xnew full_cov (self, w) =
  if decide (Xnew_ok self Xnew) then
    (predict_of self (heap w) Xnew full_cov, (with_mode (Some mode_guide) self, w))
  else (Exn ShapeError, (self, w)).
Proof.
  unfold forward, _check_Xnew_shape, Xnew_ok.
  unfold bind at 1 2. unfold get_self, gets; simpl.
  destruct (decide _) as [Hok|Hbad]; [|reflexivity].
  unfold ret at 1. unfold bind at 1. simpl.
  unfold bind at 1. unfold set_sample_latent, modify; simpl.
  unfold bind at 1. rewrite guide_closed_form. simpl.
  unfold bind, call_conditional, predict_of, ret; simpl.
  rewrite with_mode_sample_latent, with_sample_latent_id.
  destruct (conditional _ _ _ _ _ _ _ _) as [[loc cov]|e]; reflexivity.
Qed.

(** [model]: the mode, the Cholesky factor of [Kuu], the site, the engine
    with that factor and, when there are observations, the likelihood. *)
Lemma model_closed_form (self : SparseVariationalGP) (w : world) :
  model (self, w) =
  let self' := with_mode (Some mode_model) self in
  match t_shape (Xu self) with
  | [] => (Exn IndexError, (self', w))
  | _ :: _ =>
      match potrf (Kuu_of self (heap w)) with
      | None => (Exn NumericalError, (self', w))
      | Some Luu =>
          let w1 := register (prior_site self w Luu) w in
          match latent_of self (heap w) Luu with
          | Exn e => (Exn e, (self', w1))
          | Val (f_loc, f_var) =>
              match y self with
              | None => (Val (Latent f_loc f_var), (self', w1))
              | Some yt =>
                  match likelihood_apply (likelihood self) f_loc f_var (load (heap w) yt) w1 with
                  | (Val r, w2) => (Val (Observed r), (self', w2))
                  | (Exn e, w2) => (Exn e, (self', w2))
                  end
              end
          end
      end
  end.
Proof.
  unfold model, Kuu_of.
  unfold bind, set_mode, modify, get_param, gets, shape0, get_self, call_kernel,
    call_potrf, sample, call_conditional, call_likelihood, ret, raise; cbn.
  destruct (t_shape (Xu self)) as [|M sh] eqn:Hsh; [reflexivity|]. cbn.
  destruct (potrf _) as [Luu|]; [|reflexivity]. cbn.
  change (conditional _ _ _ _ _ _ _ _) with (latent_of self (heap w) Luu).
  destruct (latent_of _ _ _) as [[f_loc f_var]|e]; [|reflexivity].
  destruct (y self) as [yt|]; [|reflexivity].
  change (register _ w) with (register (prior_site self w Luu) w).
  destruct (likelihood_apply _ _ _ _ _) as [[r|e] w2]; reflexivity.
Qed.

(** With the Cholesky factor supplied the engine does not fail. *)
Lemma latent_of_returns (self : SparseVariationalGP) (h : gmap loc (list Q)) (Luu : matrix) :
  exists f_loc f_var, latent_of self h Luu = Val (f_loc, f_var).
Proof. unfold latent_of, conditional, conditional_unclipped; simpl. eauto. Qed.

(** ** The guide *)

(** C4. The flag [_sample_latent] decides whether [guide] declares the
    site of the inducing values: when it is set, exactly that site is
    added, with the multivariate normal of mean [u_loc] and scale factor
    [u_scale_tril] as read from the parameters; when it is cleared, no
    site is added. In both cases [guide] returns the inducing points, the
    kernel, the posterior mean and the posterior scale factor, and leaves
    the heap alone. *)
Theorem guide_site_follows_flag (self : SparseVariationalGP) (w : world) :
  let r := guide (self, w) in
  let fn := MultivariateNormal (load (heap w) (u_loc self))
              (load (heap w) (u_scale_tril self)) (length (t_shape (u_loc self)) - 1) in
  fst r = Val (Xu self, kernel self, u_loc self, u_scale_tril self)
  /\ heap (snd (snd r)) = heap w
  /\ sites (snd (snd r)) =
       (if _sample_latent self
        then [Site (u_site_name self) fn (oracle w (u_site_name self) fn)]
        else []) ++ sites w.
Proof.
  cbn zeta. rewrite guide_closed_form. cbn [fst snd].
  destruct (_sample_latent self); repeat split; reflexivity.
Qed.

(** ** Prediction *)

(** C6. On every normal return [forward] has left the whole world (heap,
    sample sites, engine) as it was, the three parameters are the same
    tensors with the same content, and [_sample_latent] holds its value
    from before the call. The only attribute the call has written is the
    mode, set by [guide]. *)
Theorem forward_frame (Xnew : tensor) (full_cov : bool) (s : state) (v : tval * tval) :
  fst (forward Xnew full_cov s) = Val v ->
  let s' := snd (forward Xnew full_cov s) in
  snd s' = snd s
  /\ sites (snd s') = sites (snd s)
  /\ (Xu (fst s') = Xu (fst s) /\ u_loc (fst s') = u_loc (fst s)
      /\ u_scale_tril (fst s') = u_scale_tril (fst s))
  /\ (load (heap (snd s')) (Xu (fst s')) = load (heap (snd s)) (Xu (fst s))
      /\ load (heap (snd s')) (u_loc (fst s')) = load (heap (snd s)) (u_loc (fst s))
      /\ load (heap (snd s')) (u_scale_tril (fst s')) = load (heap (snd s)) (u_scale_tril (fst s)))
  /\ _sample_latent (fst s') = _sample_latent (fst s)
  /\ fst s' = with_mode (Some mode_guide) (fst s).
Proof.
  destruct s as [self w]. rewrite forward_closed_form.
  destruct (decide _); [|discriminate].
  intros _. cbn. repeat split; reflexivity.
Qed.

Lemma same_inputs_predict (Xnew : tensor) (full_cov : bool) (s1 s2 : state) :
  same_inputs Xnew s1 s2 ->
  predict_of (fst s1) (heap (snd s1)) Xnew full_cov
  = predict_of (fst s2) (heap (snd s2)) Xnew full_cov.
Proof.
  intros (_ & Hk & Hj & HX & HXu & Hloc & Hscale). unfold predict_of.
  by rewrite Hk, Hj, HX, HXu, Hloc, Hscale.
Qed.

(** C9. [forward] is a function of [Xnew], [full_cov] and the stored
    parameter values: two calls on states with the same inputs give the
    same result (the same pair, or the same exception), whatever the
    flag, the mode, the registered sites and the values the engine would
    draw; a call registers no site, and a second call right after the
    first gives the result of the first. *)
Theorem forward_deterministic (Xnew : tensor) (full_cov : bool) (s1 s2 : state) :
  same_inputs Xnew s1 s2 ->
  fst (forward Xnew full_cov s1) = fst (forward Xnew full_cov s2)
  /\ sites (snd (snd (forward Xnew full_cov s1))) = sites (snd s1)
  /\ fst (forward Xnew full_cov (snd (forward Xnew full_cov s1)))
     = fst (forward Xnew full_cov s1).
Proof.
  intros Hsame. pose proof (same_inputs_predict Xnew full_cov _ _ Hsame) as Hp.
  destruct Hsame as (HX & _).
  destruct s1 as [self1 w1], s2 as [self2 w2]; cbn [fst snd] in *.
  rewrite !forward_closed_form. unfold Xnew_ok. rewrite HX.
  destruct (decide _) as [Hok|Hbad]; cbn [fst snd].
  - rewrite forward_closed_form. unfold Xnew_ok. cbn [X with_mode].
    rewrite HX. rewrite decide_True by done. cbn [fst]. repeat split; done.
  - rewrite forward_closed_form. unfold Xnew_ok. rewrite HX.
    rewrite decide_False by done. repeat split; done.
Qed.

(** C7, as amended. [guide] never raises. When [forward] raises, it is
    the ShapeError of the shape test with nothing written, or the
    NumericalError of the factorisation inside the engine with nothing
    written but the mode: heap, sample sites, parameters and
    [_sample_latent] hold their values from before the call. When [model]
    raises, the instance is as before but for the mode, and the world is
    untouched unless the factorisation had succeeded, in which case the
    site of the inducing values has been registered before the likelihood
    raised. *)
Theorem raise_leaves_state (self : SparseVariationalGP) (w : world)
    (Xnew : tensor) (full_cov : bool) :
  (exists v s', guide (self, w) = (Val v, s'))
  /\ match forward Xnew full_cov (self, w) with
     | (Val _, _) => True
     | (Exn e, s') =>
         (e = ShapeError /\ s' = (self, w))
         \/ (e = NumericalError /\ s' = (with_mode (Some mode_guide) self, w))
     end
  /\ match model (self, w) with
     | (Val _, _) => True
     | (Exn e, s') =>
         fst s' = with_mode (Some mode_model) self
         /\ (snd s' = w
             \/ exists Luu f_loc f_var yt,
                  potrf (Kuu_of self (heap w)) = Some Luu
                  /\ latent_of self (heap w) Luu = Val (f_loc, f_var)
                  /\ y self = Some yt
                  /\ likelihood_apply (likelihood self) f_loc f_var (load (heap w) yt)
                       (register (prior_site self w Luu) w) = (Exn e, snd s'))
     end.
Proof.
  split; [rewrite guide_closed_form; eauto|]. split.
  - rewrite forward_closed_form. destruct (decide _); [|by left].
    unfold predict_of.
    destruct (conditional _ _ _ _ _ _ _ _) as [v|e] eqn:Hc; [done|]. right.
    split; [|done].
    unfold conditional, conditional_unclipped in Hc.
    destruct (potrf _); [destruct full_cov; discriminate|]. by injection Hc.
  - rewrite model_closed_form. cbn zeta.
    destruct (t_shape (Xu self)); [by split; [|left]|].
    destruct (potrf _) as [Luu|] eqn:Hp; [|by split; [|left]].
    destruct (latent_of_returns self (heap w) Luu) as (f_loc & f_var & Hl).
    rewrite Hl. destruct (y self) as [yt|] eqn:Hy; [|done].
    destruct (likelihood_apply _ _ _ _ _) as [[r|e] w2] eqn:Hlik; [done|].
    split; [done|]. right. by exists Luu, f_loc, f_var, yt.
Qed.

(** ** The generative model *)

(** C1. In every invocation of [model] that gets past the factorisation
    of [Kuu], the latent mean and variance are what the engine returns
    for the training inputs, the current content of the parameters [Xu],
    [u_loc] and [u_scale_tril], the factor [Luu] and [full_cov = false];
    they are what [model] returns or hands to the likelihood, whatever
    value the engine draws at the sample site. *)
Theorem model_latent_from_parameters (self : SparseVariationalGP) (w : world)
    (M : nat) (sh : list nat) (Luu : matrix) :
  t_shape (Xu self) = M :: sh ->
  potrf (Kuu_of self (heap w)) = Some Luu ->
  exists f_loc f_var,
    conditional (load (heap w) (X self)) (load (heap w) (Xu self)) (kernel self)
      (load (heap w) (u_loc self)) (load (heap w) (u_scale_tril self))
      (Some Luu) false (jitter self) = Val (f_loc, f_var)
    /\ forall o : string -> Dist -> tval,
        let w' := with_oracle o w in
        fst (model (self, w')) =
        match y self with
        | None => Val (Latent f_loc f_var)
        | Some yt =>
            match fst (likelihood_apply (likelihood self) f_loc f_var (load (heap w) yt)
                         (register (prior_site self w' Luu) w')) with
            | Val r => Val (Observed r)
            | Exn e => Exn e
            end
        end.
Proof.
  intros Hsh Hp.
  destruct (latent_of_returns self (heap w) Luu) as (f_loc & f_var & Hl).
  exists f_loc, f_var. split; [exact Hl|]. intros o w'.
  rewrite model_closed_form. cbn zeta. rewrite Hsh.
  change (heap w') with (heap w). rewrite Hp, Hl.
  destruct (y self) as [yt|]; [|done].
  by destruct (likelihood_apply _ _ _ _ _) as [[r|e] w2].
Qed.

(** C2. In every invocation of [model] that gets past the factorisation
    of [Kuu = k(Xu, Xu) + jitter·I] on the current inducing points,
    [model] itself registers exactly one site: the world it hands to the
    likelihood (or leaves, without observations) is the one it found plus
    the site of the inducing values, a multivariate normal with zero mean
    and the lower factor of [Kuu] as scale. The name of the site is a
    function of the instance name, the one [guide] uses. *)
Theorem model_declares_u_site (self : SparseVariationalGP) (w : world)
    (M : nat) (sh : list nat) (Luu : matrix) :
  t_shape (Xu self) = M :: sh ->
  potrf (Kuu_of self (heap w)) = Some Luu ->
  let u_site := prior_site self w Luu in
  let w1 := register u_site w in
  sites w1 = u_site :: sites w /\ heap w1 = heap w
  /\ site_name u_site = param_with_module_name (name self) "u"
  /\ site_fn u_site =
       MultivariateNormal (TVal (t_shape (u_loc self))
                             (replicate (numel (t_shape (u_loc self))) 0%Q))
         (of_matrix Luu) (length (t_shape (u_loc self)) - 1)
  /\ (exists f_loc f_var,
        latent_of self (heap w) Luu = Val (f_loc, f_var)
        /\ snd (snd (model (self, w))) =
           match y self with
           | None => w1
           | Some yt =>
               snd (likelihood_apply (likelihood self) f_loc f_var (load (heap w) yt) w1)
           end)
  /\ forall w' : world,
       _sample_latent self = true ->
       map site_name (sites (snd (snd (guide (self, w')))))
       = site_name u_site :: map site_name (sites w').
Proof.
  intros Hsh Hp u_site w1. repeat split.
  - destruct (latent_of_returns self (heap w) Luu) as (f_loc & f_var & Hl).
    exists f_loc, f_var. split; [exact Hl|].
    rewrite model_closed_form. cbn zeta. rewrite Hsh, Hp, Hl.
    destruct (y self) as [yt|]; [|done].
    by destruct (likelihood_apply _ _ _ _ _) as [[r|e] w2].
  - intros w' Hflag. rewrite guide_closed_form, Hflag. reflexivity.
Qed.

(** C3. In every invocation of [model] that gets past the factorisation:
    without training outputs [model] returns the pair of latent mean and
    variance, for any likelihood the instance may carry, and the world it
    leaves holds the site of the inducing values and nothing from a
    likelihood; with training outputs [model] returns (or raises) what
    the likelihood returns (or raises) on the latent mean, the latent
    variance and [y], and leaves the world the likelihood leaves. *)
Theorem model_return (self : SparseVariationalGP) (w : world)
    (M : nat) (sh : list nat) (Luu : matrix) :
  t_shape (Xu self) = M :: sh ->
  potrf (Kuu_of self (heap w)) = Some Luu ->
  exists f_loc f_var,
    latent_of self (heap w) Luu = Val (f_loc, f_var)
    /\ match y self with
       | None =>
           forall lik : Likelihood,
             model (with_likelihood lik self, w) =
             (Val (Latent f_loc f_var),
              (with_mode (Some mode_model) (with_likelihood lik self),
               register (prior_site self w Luu) w))
       | Some yt =>
           let r := likelihood_apply (likelihood self) f_loc f_var (load (heap w) yt)
                      (register (prior_site self w Luu) w) in
           model (self, w) =
           (match fst r with Val sc => Val (Observed sc) | Exn e => Exn e end,
            (with_mode (Some mode_model) self, snd r))
       end.
Proof.
  intros Hsh Hp.
  destruct (latent_of_returns self (heap w) Luu) as (f_loc & f_var & Hl).
  exists f_loc, f_var. split; [exact Hl|].
  destruct (y self) as [yt|] eqn:Hy.
  - cbn zeta. rewrite model_closed_form. cbn zeta. rewrite Hsh, Hp, Hl, Hy.
    by destruct (likelihood_apply _ _ _ _ _) as [[r|e] w2].
  - intros lik. rewrite model_closed_form. cbn zeta.
    change (t_shape (Xu (with_likelihood lik self))) with (t_shape (Xu self)).
    change (Kuu_of (with_likelihood lik self) (heap w)) with (Kuu_of self (heap w)).
    change (latent_of (with_likelihood lik self) (heap w)) with (latent_of self (heap w)).
    change (y (with_likelihood lik self)) with (y self).
    rewrite Hsh, Hp, Hl, Hy. reflexivity.
Qed.

(** ** Non-negative variances *)

Lemma clip_nonneg (x : Q) : (0 <= clip x)%Q.
Proof.
  unfold clip. destruct (Qle_bool 0 x) eqn:Hx.
  - by apply Qle_bool_iff.
  - apply Qle_refl.
Qed.

Lemma clip_floor (x : Q) : ((x < 0)%Q -> clip x = 0%Q) /\ ((0 <= x)%Q -> clip x = x).
Proof.
  unfold clip. destruct (Qle_bool 0 x) eqn:Hx; split; intros Hlt; try reflexivity.
  - apply Qle_bool_iff in Hx. by destruct (Qlt_not_le _ _ Hlt).
  - apply Qle_bool_iff in Hlt. congruence.
Qed.

(** In diagonal mode the engine returns the variances of steps 1 to 6
    with [clip] applied to each. *)
Lemma conditional_diag_clipped (Xnew Xu' : tval) (k : Kernel) (meanU scaleU : tval)
    (chol : option matrix) (jit : Q) (mean var : tval) :
  conditional Xnew Xu' k meanU scaleU chol false jit = Val (mean, var) ->
  exists raw,
    conditional_unclipped Xnew Xu' k meanU scaleU chol false jit = Val (mean, raw)
    /\ shape var = shape raw /\ data var = map clip (data raw).
Proof.
  unfold conditional.
  destruct (conditional_unclipped _ _ _ _ _ _ _ _) as [[mean' raw]|e]; [|discriminate].
  intros [= <- <-]. by exists raw.
Qed.

Lemma conditional_diag_nonneg (Xnew Xu' : tval) (k : Kernel) (meanU scaleU : tval)
    (chol : option matrix) (jit : Q) (mean var : tval) :
  conditional Xnew Xu' k meanU scaleU chol false jit = Val (mean, var) ->
  Forall (Qle 0) (data var).
Proof.
  intros (raw & _ & _ & ->)%conditional_diag_clipped.
  apply Forall_map, Forall_true. intros x. apply clip_nonneg.
Qed.

(** C8. In diagonal mode every element of the variance the engine returns
    is at least zero: it is the variance of steps 1 to 6 where that is not
    negative and exactly zero where it is. The same holds for the
    variance [forward] returns with [full_cov = false] and for the latent
    variance of [model], whether returned or handed to the likelihood. *)
Theorem variance_nonnegative :
  (forall (Xnew Xu' : tval) (k : Kernel) (meanU scaleU : tval) (chol : option matrix)
          (jit : Q) (mean var : tval),
     conditional Xnew Xu' k meanU scaleU chol false jit = Val (mean, var) ->
     Forall (Qle 0) (data var)
     /\ exists raw,
         conditional_unclipped Xnew Xu' k meanU scaleU chol false jit = Val (mean, raw)
         /\ shape var = shape raw
         /\ Forall2 (fun r v => ((r < 0)%Q -> v = 0%Q) /\ ((0 <= r)%Q -> v = r))
              (data raw) (data var))
  /\ (forall (Xnew : tensor) (s : state) (loc var : tval),
        fst (forward Xnew false s) = Val (loc, var) -> Forall (Qle 0) (data var))
  /\ (forall (self : SparseVariationalGP) (h : gmap loc (list Q)) (Luu : matrix)
             (f_loc f_var : tval),
        latent_of self h Luu = Val (f_loc, f_var) -> Forall (Qle 0) (data f_var))
  /\ (forall (s : state) (f_loc f_var : tval),
        fst (model s) = Val (Latent f_loc f_var) -> Forall (Qle 0) (data f_var)).
Proof.
  split; [|split; [|split]].
  - intros Xnew Xu' k meanU scaleU chol jit mean var Hc.
    split; [by eapply conditional_diag_nonneg|].
    destruct (conditional_diag_clipped _ _ _ _ _ _ _ _ _ Hc) as (raw & Hraw & Hsh & Hd).
    exists raw. split; [done|]. split; [done|]. rewrite Hd.
    apply Forall2_fmap_r, Forall_Forall2_diag, Forall_true. intros x. apply clip_floor.
  - intros Xnew [self w] loc var. rewrite forward_closed_form.
    destruct (decide _); [|discriminate]. cbn [fst]. intros Hc.
    by eapply conditional_diag_nonneg.
  - intros self h Luu f_loc f_var Hl. by eapply conditional_diag_nonneg.
  - intros [self w] f_loc f_var. rewrite model_closed_form. cbn zeta.
    destruct (t_shape (Xu self)); [discriminate|].
    destruct (potrf _) as [Luu|]; [|discriminate].
    destruct (latent_of self (heap w) Luu) as [[f_loc' f_var']|e] eqn:Hl; [|discriminate].
    destruct (y self).
    + destruct (likelihood_apply _ _ _ _ _) as [[r|e] w2]; discriminate.
    + intros [= <- <-]. by eapply conditional_diag_nonneg.
Qed.

End Properties.

(** * The properties on the concrete instance *)

Section OnDemo.
#[local] Existing Instance Demo.collab.

Example demo_factor : potrf (Kuu_of Demo.self0 (heap Demo.w0)) = Some Demo.Luu0.
Proof. vm_compute. reflexivity. Qed.

Example demo_factor_value :
  map (map Qred) Demo.Luu0 = [[1; 0]; [95 # 193; 168 # 193]]%Q.
Proof. vm_compute. reflexivity. Qed.

Example demo_prediction :
  fst (forward Demo.tX false (Demo.self0, Demo.w0)) = Val Demo.pred0
  /\ shape (fst Demo.pred0) = [3] /\ shape (snd Demo.pred0) = [3]
  /\ map Qred (data (fst Demo.pred0)) = [0; 0; 0]%Q.
Proof. repeat split; vm_compute; reflexivity. Qed.

(** The floor at work: with a factor that is too small for [Kuu] the
    variance of steps 1 to 6 is negative, and the engine returns zero. *)
Example demo_clip :
  let x := TVal [1] [0]%Q in
  let S := TVal [1; 1] [0]%Q in
  conditional_unclipped x x 1%Q x S (Some [[1 # 10]]%Q) false 0%Q
  = Val (TVal [1] [0]%Q, TVal [1] [-99]%Q)
  /\ conditional x x 1%Q x S (Some [[1 # 10]]%Q) false 0%Q
     = Val (TVal [1] [0]%Q, TVal [1] [0]%Q).
Proof. split; vm_compute; reflexivity. Qed.

(** On the instance, whatever the engine draws, [model] returns the same
    latent mean and variance. *)
Lemma model_latent_from_parameters_witness :
  t_shape (Xu Demo.self0) = [2; 1] /\ potrf (Kuu_of Demo.self0 (heap Demo.w0)) = Some Demo.Luu0
  /\ exists f_loc f_var : tval,
       forall o : string -> Dist -> tval,
         fst (model (Demo.self0, with_oracle o Demo.w0)) = Val (Latent f_loc f_var).
Proof.
  split; [reflexivity|]. split; [vm_compute; reflexivity|].
  destruct (model_latent_from_parameters Demo.self0 Demo.w0 2 [1] Demo.Luu0)
    as (f_loc & f_var & _ & Ho); [reflexivity | vm_compute; reflexivity |].
  exists f_loc, f_var. intros o. exact (Ho o).
Defined.

(** On the instance, [model] leaves exactly the site of the inducing
    values. *)
Lemma model_declares_u_site_witness :
  t_shape (Xu Demo.self0) = [2; 1] /\ potrf (Kuu_of Demo.self0 (heap Demo.w0)) = Some Demo.Luu0
  /\ map site_name (sites (snd (snd (model (Demo.self0, Demo.w0))))) = ["SVGP$$$u"].
Proof.
  split; [reflexivity|]. split; [vm_compute; reflexivity|].
  destruct (model_declares_u_site Demo.self0 Demo.w0 2 [1] Demo.Luu0)
    as (_ & _ & _ & _ & (f_loc & f_var & _ & Hm) & _);
    [reflexivity | vm_compute; reflexivity |].
  rewrite Hm. reflexivity.
Defined.

(** On the instance, which has no training outputs, the likelihood it
    carries makes no difference to what [model] returns. *)
Lemma model_return_witness :
  t_shape (Xu Demo.self0) = [2; 1] /\ potrf (Kuu_of Demo.self0 (heap Demo.w0)) = Some Demo.Luu0
  /\ exists f_loc f_var : tval,
       forall lik : bool,
         fst (model (Demo.self_of Demo.var0 Demo.jitter0 None lik, Demo.w0))
         = Val (Latent f_loc f_var).
Proof.
  split; [reflexivity|]. split; [vm_compute; reflexivity|].
  destruct (model_return Demo.self0 Demo.w0 2 [1] Demo.Luu0)
    as (f_loc & f_var & _ & Hy); [reflexivity | vm_compute; reflexivity |].
  exists f_loc, f_var. intros lik. exact (f_equal fst (Hy lik)).
Defined.

(** The constructor on the caller's tensors of the instance. *)
Lemma init_parameters_witness :
  t_shape Demo.tXu = [2; 1]
  /\ exists (self : SparseVariationalGP) (h' : gmap loc (list Q)),
       Demo.build None false = (Val self, h')
       /\ load h' (u_loc self) = TVal [2] [0; 0]%Q
       /\ load h' (u_scale_tril self) = TVal [2; 2] [1; 0; 0; 1]%Q
       /\ Xu self = Demo.tXu.
Proof.
  split; [reflexivity|].
  destruct (init_parameters (H := Demo.collab) Demo.tX None Demo.var0 Demo.tXu false None
              Demo.jitter0 "SVGP" Demo.heap0 2 [1])
    as (self & h' & Hb & Hls & Hloc & Hscale & HXu & _); [reflexivity|].
  exists self, h'. rewrite Hls in Hloc, Hscale.
  split; [exact Hb|]. split; [exact Hloc|]. split; [exact Hscale|]. exact HXu.
Defined.

(** A prediction on the instance leaves the world and the flag alone. *)
Lemma forward_frame_witness :
  fst (forward Demo.tX false (Demo.self0, Demo.w0)) = Val Demo.pred0
  /\ snd (snd (forward Demo.tX false (Demo.self0, Demo.w0))) = Demo.w0
  /\ _sample_latent (fst (snd (forward Demo.tX false (Demo.self0, Demo.w0)))) = true.
Proof.
  split; [vm_compute; reflexivity|].
  destruct (forward_frame Demo.tX false (Demo.self0, Demo.w0) Demo.pred0)
    as (Hw & _ & _ & _ & Hflag & _); [vm_compute; reflexivity|].
  split; [exact Hw | exact Hflag].
Defined.

(** The variances predicted on the instance are not negative. *)
Lemma variance_nonnegative_witness :
  fst (forward Demo.tX false (Demo.self0, Demo.w0)) = Val Demo.pred0
  /\ Forall (Qle 0) (data (snd Demo.pred0)).
Proof.
  split; [vm_compute; reflexivity|].
  destruct variance_nonnegative as (_ & Hforward & _).
  apply (Hforward Demo.tX (Demo.self0, Demo.w0) (fst Demo.pred0) (snd Demo.pred0)).
  vm_compute. reflexivity.
Defined.

(** The same parameters give the same prediction in another situation. *)
Lemma forward_deterministic_witness :
  same_inputs Demo.tX (Demo.self0, Demo.w0) Demo.state0'
  /\ fst (forward Demo.tX false (Demo.self0, Demo.w0)) = fst (forward Demo.tX false Demo.state0').
Proof.
  assert (Hsame : same_inputs Demo.tX (Demo.self0, Demo.w0) Demo.state0')
    by (repeat split; reflexivity).
  split; [exact Hsame|].
  exact (proj1 (forward_deterministic Demo.tX false (Demo.self0, Demo.w0) Demo.state0' Hsame)).
Defined.

(** Against C5 as stated: the parameter built from the caller's inducing
    points is not a copy. After an in-place update of the stored
    parameter the caller's tensor reads the new values. *)
Lemma init_Xu_shares_storage :
  match Demo.build None false with
  | (Val self, h') =>
      load h' Demo.tXu = TVal [2; 1] [1 # 2; 3 # 2]%Q
      /\ load (store_ (Xu self) [9; 9]%Q h') Demo.tXu = TVal [2; 1] [9; 9]%Q
      /\ load (store_ (Xu self) [9; 9]%Q h') Demo.tXu <> load h' Demo.tXu
  | (Exn _, _) => False
  end.
Proof. vm_compute. repeat split. discriminate. Qed.

(** Against C7 as stated: with two inducing points at the same place and
    no jitter, [forward] raises from the factorisation after [guide] has
    set the mode; with observations the likelihood rejects, [model] raises
    after it has registered its site. *)
Lemma raise_after_mutation :
  (fst (forward Demo.tX false Demo.state_singular) = Exn NumericalError
   /\ mode (fst Demo.state_singular) = None
   /\ mode (fst (snd (forward Demo.tX false Demo.state_singular))) = Some mode_guide)
  /\ (fst (model (Demo.state0 (Some Demo.ty_short) true)) = Exn (Raised "shape mismatch")
      /\ sites (snd (Demo.state0 (Some Demo.ty_short) true)) = []
      /\ map site_name (sites (snd (snd (model (Demo.state0 (Some Demo.ty_short) true)))))
         = ["SVGP$$$u"]).
Proof. repeat split; vm_compute; reflexivity. Qed.

End OnDemo.

(** * Further properties of the class *)

Section Further.
Context `{Collaborators}.

#[local] Arguments conditional : simpl never.
#[local] Arguments load : simpl never.

(** ** The constructor *)

(** The constructor in closed form: the two storages it allocates and the
    instance it returns. *)
Lemma init_closed_form (X' : tensor) (y' : option tensor) (k : Kernel) (Xu' : tensor)
    (lik : Likelihood) (ls : option (list nat)) (j : Q) (nm : string)
    (h : gmap loc (list Q)) (M : nat) (sh : list nat) :
  t_shape Xu' = M :: sh ->
  let latent :=
    default (match y' with Some yt => removelast (t_shape yt) | None => [] end) ls in
  let l1 := fresh (dom h) in
  let h1 := <[l1 := replicate (numel (latent ++ [M])) 0%Q]> h in
  let l2 := fresh (dom h1) in
  __init__ X' y' k Xu' lik ls j nm h =
  (Val {| X := X'; y := y'; kernel := k; jitter := j; name := nm; likelihood := lik;
          Xu := Xu'; latent_shape := latent;
          u_loc := Tensor l1 (latent ++ [M]) (contiguous (latent ++ [M]));
          u_scale_tril := expand (latent ++ [M; M]) (Tensor l2 [M; M] (contiguous [M; M]));
          constraints := <["u_scale_tril" := lower_cholesky]> ∅;
          _sample_latent := true; mode := None |},
   <[l2 := concat (eye M)]> h1).
Proof.
  intros Hsh. unfold __init__, bind, shape0, nn_Parameter. rewrite Hsh. reflexivity.
Qed.

(** X1. Initial inducing points without a dimension make the constructor
    raise at [Xu.shape[0]], before anything is allocated: the heap is as
    it was. *)
Theorem init_scalar_Xu_raises (X' : tensor) (y' : option tensor) (k : Kernel) (Xu' : tensor)
    (lik : Likelihood) (ls : option (list nat)) (j : Q) (nm : string)
    (h : gmap loc (list Q)) :
  t_shape Xu' = [] ->
  __init__ X' y' k Xu' lik ls j nm h = (Exn IndexError, h).
Proof.
  intros Hsh. unfold __init__, bind, shape0, nn_Parameter. rewrite Hsh. reflexivity.
Qed.

(** X2. The constructor allocates two storages and no more. The one of
    the scale factor holds the M x M cells of one identity, whatever the
    latent shape: every entry of the latent batch is a view on these
    cells, so an in-place update of the storage is read in every entry
    at once. *)
Theorem init_scale_tril_one_storage (X' : tensor) (y' : option tensor) (k : Kernel)
    (Xu' : tensor) (lik : Likelihood) (ls : option (list nat)) (j : Q) (nm : string)
    (h : gmap loc (list Q)) (M : nat) (sh : list nat) :
  t_shape Xu' = M :: sh ->
  exists (self : SparseVariationalGP) (h' : gmap loc (list Q)),
    __init__ X' y' k Xu' lik ls j nm h = (Val self, h')
    /\ dom h' = {[t_loc (u_loc self); t_loc (u_scale_tril self)]} ∪ dom h
    /\ (exists cells0 : list Q,
         h' !! t_loc (u_scale_tril self) = Some cells0 /\ length cells0 = M * M)
    /\ forall cells : list Q,
         length cells = M * M ->
         load (store_ (u_scale_tril self) cells h') (u_scale_tril self)
         = TVal (latent_shape self ++ [M; M])
                (concat (replicate (numel (latent_shape self)) cells)).
Proof.
  intros Hsh. pose proof (init_closed_form X' y' k Xu' lik ls j nm h M sh Hsh) as Hinit.
  cbv zeta in Hinit. eexists _, _. split; [exact Hinit|].
  cbn [u_loc u_scale_tril latent_shape t_loc expand]. split.
  { rewrite !dom_insert_L. apply set_eq. intros l.
    rewrite !elem_of_union, !elem_of_singleton. tauto. }
  split.
  { exists (concat (eye M)). split; [apply lookup_insert_eq | apply length_concat_eye]. }
  intros cells Hlen. unfold store_. cbn [t_loc].
  apply load_expand; [apply lookup_insert_eq|]. rewrite Hlen. cbn. lia.
Qed.

Lemma fresh_not_in_dom (h : gmap loc (list Q)) (l : loc) :
  l ∈ dom h -> fresh (dom h) <> l.
Proof. intros Hin Heq. rewrite <- Heq in Hin. by apply is_fresh in Hin. Qed.

Lemma in_dom_insert (h : gmap loc (list Q)) (l l' : loc) (cells : list Q) :
  l = l' \/ l ∈ dom h -> l ∈ dom (<[l' := cells]> h).
Proof. rewrite dom_insert_L, elem_of_union, elem_of_singleton. tauto. Qed.

(** X3. Two instances built one after the other from the same initial
    inducing points have the same inducing-point parameter, on the
    caller's storage, and four storages of their own for the posterior
    means and scale factors: an in-place update of the mean or the scale
    factor of the first is not read by the second, an update of the
    inducing points of the first is. *)
Theorem init_twice_shares_Xu_only (Xa Xb : tensor) (ya yb : option tensor) (ka kb : Kernel)
    (Xu' : tensor) (lika likb : Likelihood) (lsa lsb : option (list nat)) (ja jb : Q)
    (nma nmb : string) (h : gmap loc (list Q)) (M : nat) (sh : list nat) :
  t_shape Xu' = M :: sh ->
  exists (self1 : SparseVariationalGP) (h1 : gmap loc (list Q))
         (self2 : SparseVariationalGP) (h2 : gmap loc (list Q)),
    __init__ Xa ya ka Xu' lika lsa ja nma h = (Val self1, h1)
    /\ __init__ Xb yb kb Xu' likb lsb jb nmb h1 = (Val self2, h2)
    /\ Xu self1 = Xu self2
    /\ NoDup [t_loc (u_loc self1); t_loc (u_scale_tril self1);
              t_loc (u_loc self2); t_loc (u_scale_tril self2)]
    /\ (forall cells : list Q,
          load (store_ (u_loc self1) cells h2) (u_loc self2) = load h2 (u_loc self2)
          /\ load (store_ (u_scale_tril self1) cells h2) (u_scale_tril self2)
             = load h2 (u_scale_tril self2))
    /\ (forall cells : list Q,
          load (store_ (Xu self1) cells h2) (Xu self2) =
          TVal (t_shape Xu')
               (map (fun o => nth o cells 0%Q) (offsets (t_shape Xu') (t_strides Xu') 0))).
Proof.
  intros Hsh.
  pose proof (init_closed_form Xa ya ka Xu' lika lsa ja nma h M sh Hsh) as Ha.
  cbv zeta in Ha.
  set (l1 := fresh (dom h)) in Ha.
  set (ha := <[l1 := _]> h) in Ha. set (l2 := fresh (dom ha)) in Ha.
  set (h1 := <[l2 := _]> ha) in Ha.
  pose proof (init_closed_form Xb yb kb Xu' likb lsb jb nmb h1 M sh Hsh) as Hb.
  cbv zeta in Hb.
  set (l3 := fresh (dom h1)) in Hb.
  set (hb := <[l3 := _]> h1) in Hb. set (l4 := fresh (dom hb)) in Hb.
  set (h2 := <[l4 := _]> hb) in Hb.
  assert (H21 : l2 <> l1) by (apply fresh_not_in_dom, in_dom_insert; by left).
  assert (H31 : l3 <> l1)
    by (apply fresh_not_in_dom, in_dom_insert; right; apply in_dom_insert; by left).
  assert (H32 : l3 <> l2) by (apply fresh_not_in_dom, in_dom_insert; by left).
  assert (H41 : l4 <> l1).
  { apply fresh_not_in_dom. do 2 (apply in_dom_insert; right). apply in_dom_insert. by left. }
  assert (H42 : l4 <> l2).
  { apply fresh_not_in_dom, in_dom_insert. right. apply in_dom_insert. by left. }
  assert (H43 : l4 <> l3) by (apply fresh_not_in_dom, in_dom_insert; by left).
  eexists _, h1, _, h2. split; [exact Ha|]. split; [exact Hb|].
  cbn [Xu u_loc u_scale_tril t_loc expand]. split; [reflexivity|]. split.
  { repeat (apply NoDup_cons_2;
      [rewrite ?not_elem_of_cons; repeat split;
       first [apply not_elem_of_nil | assumption | by apply not_eq_sym]|]).
    apply NoDup_nil_2. }
  split.
  { intros cells. unfold load, store_. cbn [t_loc].
    split; rewrite lookup_insert_ne by (by apply not_eq_sym); reflexivity. }
  intros cells. unfold load, store_. by rewrite lookup_insert_eq.
Qed.

(** ** Calls in sequence *)

Lemma with_mode_id (self : SparseVariationalGP) : with_mode (mode self) self = self.
Proof. by destruct self. Qed.

(** One call rebinds no attribute of the instance but the mode. *)
Lemma after_keeps_instance (c : call) (s : state) :
  exists md : option Mode, fst (after c s) = with_mode md (fst s).
Proof.
  destruct s as [self w]. destruct c as [| |Xnew full_cov]; cbn [after fst].
  - exists (Some mode_model). rewrite model_closed_form. cbn zeta.
    destruct (t_shape (Xu self)); [done|]. destruct (potrf _); [|done].
    destruct (latent_of _ _ _) as [[f_loc f_var]|e]; [|done].
    destruct (y self); [|done].
    by destruct (likelihood_apply _ _ _ _ _) as [[r|e] w2].
  - exists (Some mode_guide). by rewrite guide_closed_form.
  - rewrite forward_closed_form. destruct (decide _).
    + by exists (Some mode_guide).
    + exists (mode self). by rewrite with_mode_id.
Qed.

(** X4. Whatever calls of [model], [guide] and [forward] a user makes, in
    whatever order and whether they return or raise, the instance
    afterwards is the instance before with at most another mode: the
    parameters are the same tensors, [_sample_latent] has its value from
    before the first call (a prediction never leaves sampling suppressed),
    and training data, kernel, jitter, name and likelihood are the same. *)
Theorem calls_keep_instance (cs : list call) (s : state) :
  (exists md : option Mode, fst (after_all cs s) = with_mode md (fst s))
  /\ _sample_latent (fst (after_all cs s)) = _sample_latent (fst s)
  /\ (Xu (fst (after_all cs s)) = Xu (fst s)
      /\ u_loc (fst (after_all cs s)) = u_loc (fst s)
      /\ u_scale_tril (fst (after_all cs s)) = u_scale_tril (fst s)
      /\ latent_shape (fst (after_all cs s)) = latent_shape (fst s))
  /\ (X (fst (after_all cs s)) = X (fst s) /\ y (fst (after_all cs s)) = y (fst s)
      /\ kernel (fst (after_all cs s)) = kernel (fst s)
      /\ jitter (fst (after_all cs s)) = jitter (fst s)
      /\ name (fst (after_all cs s)) = name (fst s)
      /\ likelihood (fst (after_all cs s)) = likelihood (fst s)).
Proof.
  assert (Hmd : exists md : option Mode, fst (after_all cs s) = with_mode md (fst s)).
  { revert s. induction cs as [|c cs IH]; intros s.
    - exists (mode (fst s)). cbn. by rewrite with_mode_id.
    - cbn [after_all foldl]. destruct (IH (after c s)) as [md Hmd].
      destruct (after_keeps_instance c s) as [md' Hc].
      exists md. unfold after_all in Hmd. rewrite Hmd, Hc. reflexivity. }
  split; [exact Hmd|]. destruct Hmd as [md ->]. repeat split; reflexivity.
Qed.

(** X5. An instance the constructor has returned stays well shaped under
    any calls: [Xu] keeps at least one dimension (so [model] does not
    fail at [Xu.shape[0]]), the shapes of [u_loc] and [u_scale_tril] keep
    fitting the number of inducing points and the latent shape, and
    sampling stays enabled. *)
Theorem constructed_stays_well_shaped (X' : tensor) (y' : option tensor) (k : Kernel)
    (Xu' : tensor) (lik : Likelihood) (ls : option (list nat)) (j : Q) (nm : string)
    (h : gmap loc (list Q)) (M : nat) (sh : list nat) :
  t_shape Xu' = M :: sh ->
  exists (self : SparseVariationalGP) (h' : gmap loc (list Q)),
    __init__ X' y' k Xu' lik ls j nm h = (Val self, h')
    /\ forall (w : world) (cs : list call),
         shapes_agree (fst (after_all cs (self, w)))
         /\ _sample_latent (fst (after_all cs (self, w))) = true.
Proof.
  intros Hsh. pose proof (init_closed_form X' y' k Xu' lik ls j nm h M sh Hsh) as Hinit.
  cbv zeta in Hinit. eexists _, _. split; [exact Hinit|]. intros w cs.
  match goal with |- context [after_all cs (?s, w)] => set (self := s) end.
  destruct (calls_keep_instance cs (self, w)) as ([md Hmd] & _).
  rewrite Hmd. subst self. split; [|reflexivity].
  exists M, sh. cbn. by rewrite Hsh.
Qed.

(** ** Failure of the factorisation *)

(** X6. When [Kuu] has no Cholesky factor, [model] raises the error of
    [potrf] before it declares its site: no site is registered, the heap
    is untouched, the likelihood is not run, and only the mode has been
    written. *)
Theorem model_factorisation_failure (self : SparseVariationalGP) (w : world)
    (M : nat) (sh : list nat) :
  t_shape (Xu self) = M :: sh ->
  potrf (Kuu_of self (heap w)) = None ->
  fst (model (self, w)) = Exn NumericalError
  /\ snd (snd (model (self, w))) = w
  /\ fst (snd (model (self, w))) = with_mode (Some mode_model) self
  /\ forall lik : Likelihood, model (with_likelihood lik self, w)
       = (Exn NumericalError, (with_mode (Some mode_model) (with_likelihood lik self), w)).
Proof.
  intros Hsh Hp. rewrite model_closed_form. cbn zeta. rewrite Hsh, Hp.
  repeat split. intros lik. rewrite model_closed_form. cbn zeta.
  change (t_shape (Xu (with_likelihood lik self))) with (t_shape (Xu self)).
  change (Kuu_of (with_likelihood lik self) (heap w)) with (Kuu_of self (heap w)).
  by rewrite Hsh, Hp.
Qed.

(** ** Model and guide side by side *)

(** X7. The site [model] declares and the site [guide] declares (with
    sampling enabled) fit each other: the same name, locations of the
    same shape (the zero location of [model] is built with the shape of
    [u_loc]) and the same number of extra event dimensions. *)
Theorem model_guide_sites_fit (self : SparseVariationalGP) (w : world)
    (M : nat) (sh : list nat) (Luu : matrix) :
  t_shape (Xu self) = M :: sh ->
  potrf (Kuu_of self (heap w)) = Some Luu ->
  _sample_latent self = true ->
  exists (sm sg : site) (f_loc f_var : tval),
    snd (snd (model (self, w))) =
      match y self with
      | None => register sm w
      | Some yt =>
          snd (likelihood_apply (likelihood self) f_loc f_var (load (heap w) yt)
                 (register sm w))
      end
    /\ snd (snd (guide (self, w))) = register sg w
    /\ site_name sm = site_name sg
    /\ shape (dist_loc (site_fn sm)) = shape (dist_loc (site_fn sg))
    /\ dist_event_dims (site_fn sm) = dist_event_dims (site_fn sg)
    /\ Forall (fun x => x = 0%Q) (data (dist_loc (site_fn sm))).
Proof.
  intros Hsh Hp Hflag.
  destruct (latent_of_returns self (heap w) Luu) as (f_loc & f_var & Hl).
  exists (prior_site self w Luu), (posterior_site self w), f_loc, f_var.
  rewrite model_closed_form, guide_closed_form. cbn zeta. rewrite Hsh, Hp, Hl, Hflag.
  split.
  { destruct (y self) as [yt|]; [|done].
    by destruct (likelihood_apply _ _ _ _ _) as [[r|e] w2]. }
  repeat split. cbn. apply Forall_replicate. reflexivity.
Qed.

(** ** Prediction between other calls *)

Lemma model_ignores_mode (md : option Mode) (self : SparseVariationalGP) (w : world) :
  model (with_mode md self, w) = model (self, w).
Proof. rewrite !model_closed_form. reflexivity. Qed.

Lemma guide_ignores_mode (md : option Mode) (self : SparseVariationalGP) (w : world) :
  guide (with_mode md self, w) = guide (self, w).
Proof. rewrite !guide_closed_form. reflexivity. Qed.

(** X8. A prediction does not disturb what comes after it: whether
    [forward] returned or raised, [model] and [guide] called next behave
    exactly as they would have without the prediction, in what they
    return or raise and in the state they leave. *)
Theorem forward_does_not_disturb (Xnew : tensor) (full_cov : bool) (s : state) :
  model (snd (forward Xnew full_cov s)) = model s
  /\ guide (snd (forward Xnew full_cov s)) = guide s.
Proof.
  destruct s as [self w]. rewrite forward_closed_form.
  destruct (decide _); cbn [snd]; [|done].
  by rewrite model_ignores_mode, guide_ignores_mode.
Qed.


(** X11. The flag [_sample_latent] is read by [guide] only: [model]
    returns or raises the same and leaves the same world whatever the
    flag, so with sampling suppressed it still declares its site. *)
Theorem model_ignores_sample_latent (b : bool) (self : SparseVariationalGP) (w : world) :
  fst (model (with_sample_latent b self, w)) = fst (model (self, w))
  /\ snd (snd (model (with_sample_latent b self, w))) = snd (snd (model (self, w)))
  /\ fst (snd (model (with_sample_latent b self, w)))
     = with_sample_latent b (fst (snd (model (self, w)))).
Proof.
  rewrite !model_closed_form. cbn zeta.
  change (t_shape (Xu (with_sample_latent b self))) with (t_shape (Xu self)).
  change (Kuu_of (with_sample_latent b self) (heap w)) with (Kuu_of self (heap w)).
  change (latent_of (with_sample_latent b self) (heap w)) with (latent_of self (heap w)).
  change (y (with_sample_latent b self)) with (y self).
  change (likelihood (with_sample_latent b self)) with (likelihood self).
  destruct (t_shape (Xu self)); [done|]. destruct (potrf _) as [Luu|]; [|done].
  change (prior_site (with_sample_latent b self) w Luu) with (prior_site self w Luu).
  destruct (latent_of _ _ _) as [[f_loc f_var]|e]; [|done].
  destruct (y self); [|done].
  by destruct (likelihood_apply _ _ _ _ _) as [[r|e] w2].
Qed.

End Further.

(** ** The per-parameter options *)


(** * The further properties on the concrete instance *)

Section FurtherOnDemo.
#[local] Existing Instance Demo.collab.

Lemma init_scalar_Xu_raises_witness :
  t_shape Demo.tScalar = []
  /\ __init__ Demo.tX None Demo.var0 Demo.tScalar false None Demo.jitter0 "SVGP" Demo.heap0
     = (Exn IndexError, Demo.heap0).
Proof. split; [reflexivity|]. apply init_scalar_Xu_raises. reflexivity. Defined.

(** With a latent shape of three entries, four cells written to the
    storage of the scale factor are read three times. *)
Lemma init_scale_tril_one_storage_witness :
  t_shape Demo.tXu = [2; 1]
  /\ exists (self : SparseVariationalGP) (h' : gmap loc (list Q)),
       __init__ Demo.tX None Demo.var0 Demo.tXu false (Some [3]) Demo.jitter0 "SVGP"
         Demo.heap0 = (Val self, h')
       /\ load (store_ (u_scale_tril self) [5; 6; 7; 8]%Q h') (u_scale_tril self)
          = TVal (latent_shape self ++ [2; 2])
                 (concat (replicate (numel (latent_shape self)) [5; 6; 7; 8]%Q)).
Proof.
  split; [reflexivity|].
  destruct (init_scale_tril_one_storage (H := Demo.collab) Demo.tX None Demo.var0 Demo.tXu
              false (Some [3]) Demo.jitter0 "SVGP" Demo.heap0 2 [1])
    as (self & h' & Hinit & _ & _ & Hread); [reflexivity|].
  exists self, h'. split; [exact Hinit|]. apply Hread. reflexivity.
Defined.

Lemma init_twice_shares_Xu_only_witness :
  t_shape Demo.tXu = [2; 1]
  /\ exists (self1 : SparseVariationalGP) (h1 : gmap loc (list Q))
            (self2 : SparseVariationalGP) (h2 : gmap loc (list Q)),
       Demo.build None false = (Val self1, h1)
       /\ __init__ Demo.tX (Some Demo.ty) Demo.var0 Demo.tXu true None Demo.jitter0 "SVGP2" h1
          = (Val self2, h2)
       /\ Xu self1 = Xu self2
       /\ t_loc (u_loc self1) <> t_loc (u_loc self2).
Proof.
  split; [reflexivity|].
  destruct (init_twice_shares_Xu_only (H := Demo.collab) Demo.tX Demo.tX None (Some Demo.ty)
              Demo.var0 Demo.var0 Demo.tXu false true None None Demo.jitter0 Demo.jitter0
              "SVGP" "SVGP2" Demo.heap0 2 [1])
    as (self1 & h1 & self2 & h2 & Ha & Hb & HXu & Hnd & _); [reflexivity|].
  exists self1, h1, self2, h2. split; [exact Ha|]. split; [exact Hb|]. split; [exact HXu|].
  intros Heq. apply NoDup_cons_1_1 in Hnd. apply Hnd. rewrite Heq.
  apply list_elem_of_further, list_elem_of_here.
Defined.

Lemma constructed_stays_well_shaped_witness :
  t_shape Demo.tXu = [2; 1]
  /\ exists (self : SparseVariationalGP) (h' : gmap loc (list Q)),
       Demo.build None false = (Val self, h')
       /\ _sample_latent
            (fst (after_all [call_model; call_forward Demo.tX true; call_guide]
                    (self, Demo.world0 h'))) = true.
Proof.
  split; [reflexivity|].
  destruct (constructed_stays_well_shaped (H := Demo.collab) Demo.tX None Demo.var0 Demo.tXu
              false None Demo.jitter0 "SVGP" Demo.heap0 2 [1])
    as (self & h' & Hinit & Hkeep); [reflexivity|].
  exists self, h'. split; [exact Hinit|]. apply Hkeep.
Defined.

(** With two inducing points at the same place and no jitter [model]
    raises and registers nothing. *)
Lemma model_factorisation_failure_witness :
  t_shape (Xu (fst Demo.state_singular)) = [2; 1]
  /\ potrf (Kuu_of (fst Demo.state_singular) (heap (snd Demo.state_singular))) = None
  /\ fst (model Demo.state_singular) = Exn NumericalError
  /\ sites (snd (snd (model Demo.state_singular))) = [].
Proof.
  split; [reflexivity|]. split; [vm_compute; reflexivity|].
  destruct (model_factorisation_failure (fst Demo.state_singular) (snd Demo.state_singular)
              2 [1]) as (Hraise & Hworld & _); [reflexivity | vm_compute; reflexivity |].
  split; [exact Hraise|]. change (model Demo.state_singular)
    with (model (fst Demo.state_singular, snd Demo.state_singular)).
  rewrite Hworld. reflexivity.
Defined.

Lemma model_guide_sites_fit_witness :
  t_shape (Xu Demo.self0) = [2; 1]
  /\ potrf (Kuu_of Demo.self0 (heap Demo.w0)) = Some Demo.Luu0
  /\ _sample_latent Demo.self0 = true
  /\ exists sm sg : site,
       snd (snd (model (Demo.self0, Demo.w0))) = register sm Demo.w0
       /\ snd (snd (guide (Demo.self0, Demo.w0))) = register sg Demo.w0
       /\ site_name sm = site_name sg.
Proof.
  split; [reflexivity|]. split; [vm_compute; reflexivity|]. split; [reflexivity|].
  destruct (model_guide_sites_fit Demo.self0 Demo.w0 2 [1] Demo.Luu0)
    as (sm & sg & f_loc & f_var & Hm & Hg & Hname & _);
    [reflexivity | vm_compute; reflexivity | reflexivity |].
  exists sm, sg. split; [exact Hm|]. split; [exact Hg | exact Hname].
Defined.


End FurtherOnDemo.
